(** * Rivertown Ball Company chat back-end: the intent-routing core

    A shallow embedding of [bedrock_utils.py]: the two parameter extractors
    ([extract_customer_name], [extract_phone_number]), the order formatter
    ([format_order_table]) and the two routing functions
    ([get_response_with_rag], [handle_customer_service_request]).

    Conventions of the embedding.
    - A Python [str] is a [list ascii]: the UTF-8 bytes of the text.  ASCII
      characters are one byte each, and the Unicode-aware classifications of
      Python ([str.isdigit], [str.lower], [str.title], the regex class [\s])
      are embedded on the ASCII range; any other byte is an unclassified
      character that these operations leave alone.
    - Exceptions are an explicit [outcome]; the three external collaborators
      (order store, language model, calling service) are functions of an
      [adapters] record, and every call made to one of them is recorded in
      the trace of the computation. *)

From Stdlib Require Import String Ascii List Bool Arith ZArith NArith Lia.
From Stdlib Require Import Numbers.DecimalString.
Import ListNotations.

Local Open Scope list_scope.

(** ** Python strings *)

Definition str := list ascii.

(** A text literal of the source. *)
Definition lit (s : string) : str := list_ascii_of_string s.

Definition code (c : ascii) : nat := nat_of_ascii c.

Definition in_range (lo hi : nat) (c : ascii) : bool :=
  (lo <=? code c) && (code c <=? hi).

(** [str.isdigit] on one character: '0'..'9'. *)
Definition isdigit (c : ascii) : bool := in_range 48 57 c.

Definition is_upper (c : ascii) : bool := in_range 65 90 c.
Definition is_lower (c : ascii) : bool := in_range 97 122 c.
Definition is_alpha (c : ascii) : bool := is_upper c || is_lower c.

Definition to_lower (c : ascii) : ascii :=
  if is_upper c then ascii_of_nat (code c + 32) else c.

Definition to_upper (c : ascii) : ascii :=
  if is_lower c then ascii_of_nat (code c - 32) else c.

(** [s.lower()] *)
Definition lower (s : str) : str := map to_lower s.

(** [s.title()]: a cased character is upper-cased when the character before
    it is not cased, and lower-cased otherwise. *)
Fixpoint title_from (previous_is_cased : bool) (s : str) : str :=
  match s with
  | [] => []
  | c :: s' =>
      (if previous_is_cased then to_lower c else to_upper c)
        :: title_from (is_alpha c) s'
  end.

Definition title (s : str) : str := title_from false s.

(** [''.join(filter(str.isdigit, s))] *)
Definition digits_of (s : str) : str := filter isdigit s.

(** [s.startswith(p)] *)
Fixpoint startswith (p s : str) : bool :=
  match p, s with
  | [], _ => true
  | _ :: _, [] => false
  | a :: p', b :: s' => Ascii.eqb a b && startswith p' s'
  end.

(** [sub in s] *)
Fixpoint contains (sub s : str) : bool :=
  startswith sub s ||
  match s with
  | [] => false
  | _ :: s' => contains sub s'
  end.

(** Slices [s[lo:hi]] with Python's treatment of negative and out-of-range
    bounds: a negative bound counts from the end, and both bounds are
    clamped to [0, len(s)]. *)
Definition clamp_index (n : nat) (i : Z) : nat :=
  let i' := if (i <? 0)%Z then (i + Z.of_nat n)%Z else i in
  Z.to_nat (Z.min (Z.max i' 0) (Z.of_nat n)).

Definition slice {A : Type} (lo hi : option Z) (s : list A) : list A :=
  let n := length s in
  let l := match lo with Some i => clamp_index n i | None => 0 end in
  let h := match hi with Some i => clamp_index n i | None => n end in
  firstn (h - l) (skipn l s).

(** [str(n)] for an [int]. *)
Definition str_of_Z (n : Z) : str := lit (NilEmpty.string_of_int (Z.to_int n)).
Definition str_of_N (n : N) : str := lit (NilEmpty.string_of_uint (N.to_uint n)).

(** [pre ++ sub ++ post]: the text [sub] occurs in [s]. *)
Definition occurs_in (sub s : str) : Prop :=
  exists pre post, s = pre ++ sub ++ post.

(** [\s] of the regular expressions, and [str.isspace]: tab, line feed,
    vertical tab, form feed, carriage return, the four separators 28..31 and
    the space. *)
Definition isspace (c : ascii) : bool := in_range 9 13 c || in_range 28 32 c.

(** Source text in which the character ` stands for a double quote. *)
Definition quoted (s : string) : str :=
  map (fun c => if Ascii.eqb c "`" then ascii_of_nat 34 else c) (lit s).

(** ** Decimal numbers *)

(** Modelled from the spec: the order records are produced by
    [dynamo_utils.get_customer_orders], which is not among the sources; the
    spec gives [total_price] as a non-negative decimal. A decimal is a sign,
    a coefficient and an exponent, its value being
    [(-1)^sign * coefficient * 10^exponent]; this is also how the float
    literals of the request parameters (0.7, 0.8) are written. *)
Record decimal := Decimal { d_neg : bool; d_coeff : N; d_exp : Z }.

(** Quotient of [n] by [d], rounded to nearest, ties to even. *)
Definition round_half_even (n d : N) : N :=
  let q := (n / d)%N in
  let r := (n mod d)%N in
  if (2 * r <? d)%N then q
  else if (d <? 2 * r)%N then (q + 1)%N
  else if N.even q then q else (q + 1)%N.

(** The absolute value in hundredths, after rounding to two places. *)
Definition hundredths (x : decimal) : N :=
  if (0 <=? d_exp x + 2)%Z
  then (d_coeff x * 10 ^ Z.to_N (d_exp x + 2))%N
  else round_half_even (d_coeff x) (10 ^ Z.to_N (- (d_exp x + 2)))%N.

Definition digit_char (n : N) : ascii := ascii_of_N (48 + n).

(** [f"{x:.2f}"] *)
Definition format_2f (x : decimal) : str :=
  let h := hundredths x in
  (if d_neg x then lit "-" else [])
  ++ str_of_N (h / 100)
  ++ lit "."
  ++ [digit_char ((h / 10) mod 10); digit_char (h mod 10)].

(** ** format_order_table *)

(** Modelled from the spec: the order record of
    [dynamo_utils.get_customer_orders], which is not among the sources. Its
    fields are the keys the formatter reads from the dict, with the types of
    the spec's data model: [order_id] an identifier string, [product] a
    string, [quantity] an integer, [order_date] a date string, [total_price]
    a decimal. *)
Record order := Order {
  order_id : str;
  product : str;
  quantity : Z;
  order_date : str;
  total_price : decimal
}.

Definition no_orders_notice : str := lit "<div>No orders found.</div>".

Definition table_header : str :=
  quoted "
    <div style=`
        font-family: sans-serif;
        max-width: 800px;
        margin: 0 auto;
        padding: 20px;
    `>
        <h2 style=`
            color: #1e3a8a;
            text-align: center;
            margin-bottom: 20px;
        `>📦 Order History</h2>
    ".

(** The f-string appended for one order. *)
Definition order_block (order : order) : str :=
  quoted "
        <div style=`
            background: white;
            border-radius: 8px;
            padding: 20px;
            margin-bottom: 20px;
            box-shadow: 0 2px 4px rgba(0,0,0,0.1);
        `>
            <div style=`
                font-size: 1.2em;
                font-weight: bold;
                color: #1e3a8a;
                margin-bottom: 15px;
            `>
                Order #"
  ++ slice None (Some 8%Z) (order_id order)
  ++ quoted "...
            </div>
            
            <div style=`
                display: grid;
                grid-template-columns: repeat(auto-fit, minmax(200px, 1fr));
                gap: 15px;
                margin-bottom: 15px;
            `>
                <div style=`padding: 10px; background: #f8f9fa; border-radius: 5px;`>
                    <div style=`font-size: 0.9em; color: #666;`>Product</div>
                    <div style=`font-weight: 500; color: #333;`>"
  ++ product order
  ++ quoted "</div>
                </div>
                
                <div style=`padding: 10px; background: #f8f9fa; border-radius: 5px;`>
                    <div style=`font-size: 0.9em; color: #666;`>Quantity</div>
                    <div style=`font-weight: 500; color: #333;`>"
  ++ str_of_Z (quantity order)
  ++ quoted " units</div>
                </div>
                
                <div style=`padding: 10px; background: #f8f9fa; border-radius: 5px;`>
                    <div style=`font-size: 0.9em; color: #666;`>Order Date</div>
                    <div style=`font-weight: 500; color: #333;`>"
  ++ order_date order
  ++ quoted "</div>
                </div>
            </div>
            
            <div style=`
                text-align: right;
                font-size: 1.1em;
                color: #1e3a8a;
                font-weight: bold;
                padding-top: 10px;
                border-top: 1px solid #eee;
            `>
                Total Amount: $"
  ++ format_2f (total_price order)
  ++ quoted "
            </div>
        </div>
        ".

Definition table_footer : str := lit "</div>".

Definition format_order_table (orders : list order) : str :=
  match orders with
  | [] => no_orders_notice
  | _ :: _ =>
      let html := table_header in
      let html := fold_left (fun html order => html ++ order_block order) orders html in
      html ++ table_footer
  end.

(** ** Regular expressions

    The fragment of Python's [re] that the name patterns are written in,
    with the matching order of the backtracking engine: a greedy quantifier
    tries the longest repetition first, a lazy one the shortest, an optional
    part is tried before it is skipped, alternatives are tried from left to
    right, and [search] tries the start positions from left to right. *)

Inductive regex :=
| Lit (s : str)                  (* literal text *)
| Rep1 (p : ascii -> bool)       (* [class]+ , greedy *)
| LazyAny                        (* .*? *)
| Opt (r : regex)                (* (?:r)? *)
| Alt (r1 r2 : regex)            (* r1|r2 *)
| Cat (r1 r2 : regex)            (* r1 r2 *)
| Group (n : nat) (r : regex).   (* (r), the n-th capturing group *)

Definition groups := list (nat * str).

Definition set_group (n : nat) (v : str) (g : groups) : groups := (n, v) :: g.

(** [match.group(n)] *)
Fixpoint group (g : groups) (n : nat) : option str :=
  match g with
  | [] => None
  | (m, v) :: g' => if m =? n then Some v else group g' n
  end.

(** [strip_prefix p s]: what is left of [s] after its prefix [p]. *)
Fixpoint strip_prefix (p s : str) : option str :=
  match p, s with
  | [], _ => Some s
  | _ :: _, [] => None
  | a :: p', b :: s' => if Ascii.eqb a b then strip_prefix p' s' else None
  end.

Definition newline : ascii := ascii_of_nat 10.

(** The text between position [s] and the later position [s']. *)
Definition consumed (s s' : str) : str := firstn (length s - length s') s.

Definition or_else {A : Type} (x y : option A) : option A :=
  match x with Some _ => x | None => y end.

(** [class]+ : the longest run of characters of the class is tried first,
    then the shorter ones, down to one character. *)
Fixpoint greedy (p : ascii -> bool) (k : str -> option groups) (s : str)
    : option groups :=
  match s with
  | c :: s' => if p c then or_else (greedy p k s') (k s') else None
  | [] => None
  end.

(** .*? : the empty skip is tried first, then one character more at a time;
    the dot does not match a line feed. *)
Fixpoint lazy_any (k : str -> option groups) (s : str) : option groups :=
  or_else (k s)
    match s with
    | c :: s' => if Ascii.eqb c newline then None else lazy_any k s'
    | [] => None
    end.

(** [run r s g k]: match [r] at the front of [s], then continue with [k] on
    the rest; the first success in the engine's order is the result. *)
Fixpoint run (r : regex) (s : str) (g : groups)
    (k : str -> groups -> option groups) : option groups :=
  match r with
  | Lit l =>
      match strip_prefix l s with
      | Some s' => k s' g
      | None => None
      end
  | Rep1 p => greedy p (fun s' => k s' g) s
  | LazyAny => lazy_any (fun s' => k s' g) s
  | Opt r1 => or_else (run r1 s g k) (k s g)
  | Alt r1 r2 => or_else (run r1 s g k) (run r2 s g k)
  | Cat r1 r2 => run r1 s g (fun s' g' => run r2 s' g' k)
  | Group n r1 => run r1 s g (fun s' g' => k s' (set_group n (consumed s s') g'))
  end.

(** [re.search(pattern, s)]: the groups of the leftmost match. *)
Fixpoint search (pattern : regex) (s : str) : option groups :=
  or_else (run pattern s [] (fun _ g => Some g))
    match s with
    | [] => None
    | _ :: s' => search pattern s'
    end.

Definition seq (rs : list regex) : regex := fold_right Cat (Lit []) rs.

Fixpoint alt (r : regex) (rs : list regex) : regex :=
  match rs with
  | [] => r
  | r' :: rs' => Alt r (alt r' rs')
  end.

Definition word (s : string) : regex := Lit (lit s).
Definition ws : regex := Rep1 isspace.                 (* \s+ *)
Definition letters : regex := Rep1 is_alpha.           (* [a-zA-Z]+ *)
Definition orders_ : regex := seq [word "order"; Opt (word "s")].   (* orders? *)
Definition possessive : regex := Opt (word "'s").      (* (?:'s)? *)

(** [([a-zA-Z]+)\s+([a-zA-Z]+)], the two captured tokens. *)
Definition two_tokens : regex := seq [Group 1 letters; ws; Group 2 letters].

(** ** extract_customer_name *)

Definition patterns : list regex := [
  (* show\s+(?:me\s+)?(?:the\s+)?(?:orders?\s+(?:for|of)\s+)?([a-zA-Z]+)\s+([a-zA-Z]+) *)
  seq [word "show"; ws; Opt (seq [word "me"; ws]); Opt (seq [word "the"; ws]);
       Opt (seq [orders_; ws; alt (word "for") [word "of"]; ws]); two_tokens];
  (* (?:what\s+(?:are|were)\s+)?([a-zA-Z]+)\s+([a-zA-Z]+)(?:'s)?\s+orders? *)
  seq [Opt (seq [word "what"; ws; alt (word "are") [word "were"]; ws]);
       two_tokens; possessive; ws; orders_];
  (* find\s+(?:the\s+)?orders?\s+(?:for|of)\s+([a-zA-Z]+)\s+([a-zA-Z]+) *)
  seq [word "find"; ws; Opt (seq [word "the"; ws]); orders_; ws;
       alt (word "for") [word "of"]; ws; two_tokens];
  (* (?:get|fetch|pull|retrieve)\s+([a-zA-Z]+)\s+([a-zA-Z]+)(?:'s)?\s+orders? *)
  seq [alt (word "get") [word "fetch"; word "pull"; word "retrieve"]; ws;
       two_tokens; possessive; ws; orders_];
  (* ([a-zA-Z]+)\s+([a-zA-Z]+)(?:'s)?\s+(?:order|purchase|transaction)s? *)
  seq [two_tokens; possessive; ws;
       alt (word "order") [word "purchase"; word "transaction"]; Opt (word "s")];
  (* orders?\s+(?:for|by|from)\s+([a-zA-Z]+)\s+([a-zA-Z]+) *)
  seq [orders_; ws; alt (word "for") [word "by"; word "from"]; ws; two_tokens];
  (* .*?(?:order|purchase|history).*?([a-zA-Z]+)\s+([a-zA-Z]+) *)
  seq [LazyAny; alt (word "order") [word "purchase"; word "history"]; LazyAny;
       two_tokens]
].

(** The loop over the patterns: the first one that matches returns.  Both
    groups take part in every match of every pattern; a group that did not
    would make [.title()] fail on None, which is the last case. *)
Fixpoint first_match (patterns : list regex) (text : str) : option (str * str) :=
  match patterns with
  | [] => None
  | pattern :: rest =>
      match search pattern text with
      | Some m =>
          match group m 1, group m 2 with
          | Some g1, Some g2 => Some (title g1, title g2)
          | _, _ => None
          end
      | None => first_match rest text
      end
  end.

Definition extract_customer_name (prompt : str) : option (str * str) :=
  first_match patterns (lower prompt).

(** ** extract_phone_number *)

Definition extract_phone_number (prompt : str) : option str :=
  let cleaned_number := digits_of prompt in
  if length cleaned_number =? 10 then
    Some (lit "+1" ++ cleaned_number)
  else if (length cleaned_number =? 11) && startswith (lit "1") cleaned_number then
    Some (lit "+" ++ cleaned_number)
  else None.

(** ** Exceptions, adapter calls and their trace *)

(** A raised Python exception, with its message. *)
Inductive exn := Exception (msg : str).

Inductive outcome (A : Type) :=
| Ret (a : A)
| Raise (e : exn).
Arguments Ret {A} a.
Arguments Raise {A} e.

#[local] Set Warnings "-register-all".

(** The parsed JSON payload of a language-model reply ([json.loads]). An
    object is the list of its members; [dict.get] finds a key's member. *)
Inductive json :=
| JNull
| JBool (b : bool)
| JNum (d : decimal)
| JStr (s : str)
| JArr (items : list json)
| JObj (members : list (str * json)).

(** The generation parameters and prompt sent to the language model. *)
Record lm_body := LmBody {
  lm_prompt : str;
  max_tokens : Z;
  lm_temperature : decimal;
  top_p : Z;
  stop_sequences : list str
}.

(** The dict that is dumped to JSON and sent as the [body] argument. *)
Record lm_request := LmRequest {
  modelId : str;
  contentType : str;
  accept : str;
  body : lm_body
}.

(** The [json=] payload of the call request. *)
Record call_data := CallData {
  phone_number : str;
  task : str;
  model : str;
  voice : str;
  max_duration : Z;
  wait_for_greeting : bool;
  temperature : decimal
}.

Record bland_config := BlandConfig {
  headers : list (str * option str);
  base_url : str
}.

(** The reply of [requests.post]. *)
Record http_response := HttpResponse {
  status_code : Z;
  text : str
}.

(** A call to an external collaborator. *)
Inductive event :=
| QueryOrders (first_name last_name : str)
| InvokeModel (modelId contentType accept : str) (body : lm_request)
| PostCall (url : str) (data : call_data) (headers : list (str * option str)).

(** The external collaborators.
    - [get_customer_orders first last]: [get_customer_orders(init_dynamodb(),
      first, last)] of the order store.
    - [invoke_model]: the decoded payload of the language model's reply,
      that is [runtime_client.invoke_model(...)], [response['body'].read()]
      and [json.loads] taken together; a failure of any of them is [Raise].
    - [requests_post]: [requests.post(url, json=data, headers=headers)].
    - [getenv]: [os.getenv] after [load_dotenv]. *)
Record adapters := Adapters {
  get_customer_orders : str -> str -> outcome (list order);
  invoke_model : str -> str -> str -> lm_request -> outcome json;
  requests_post : str -> call_data -> list (str * option str) -> outcome http_response;
  getenv : str -> option str
}.

(** A computation: its outcome and the adapter calls it made, in order. *)
Definition M (A : Type) : Type := outcome A * list event.

Definition ret {A : Type} (a : A) : M A := (Ret a, []).

Definition raise {A : Type} (e : exn) : M A := (Raise e, []).

Definition bind {A B : Type} (m : M A) (f : A -> M B) : M B :=
  match m with
  | (Ret a, t) => let (r, t') := f a in (r, t ++ t')
  | (Raise e, t) => (Raise e, t)
  end.

(** [try: m  except Exception as e: handler e] *)
Definition try_except {A : Type} (m : M A) (handler : exn -> M A) : M A :=
  match m with
  | (Ret a, t) => (Ret a, t)
  | (Raise e, t) => let (r, t') := handler e in (r, t ++ t')
  end.

(** One adapter call: the event is recorded, the adapter's outcome is the
    outcome. *)
Definition call {A : Type} (ev : event) (result : outcome A) : M A :=
  (result, [ev]).

(** Lifting a step that may raise without calling an adapter. *)
Definition lift {A : Type} (result : outcome A) : M A := (result, []).

Declare Scope monad_scope.
Delimit Scope monad_scope with monad.
Notation "x <- m ;; k" := (bind m (fun x => k))
  (at level 61, m at next level, right associativity) : monad_scope.

Definition outcome_of {A : Type} (m : M A) : outcome A := fst m.
Definition trace_of {A : Type} (m : M A) : list event := snd m.

(** ** get_response_with_rag *)

(** The dict the function returns: its [type] and [content] members. The
    content is the formatted text, or whatever value the reply's
    [completion] member holds. *)
Record response := Response {
  type : str;
  content : json
}.

(** [d.get(key, default)]; on a value that is not a dict the attribute
    lookup raises. *)
Fixpoint dict_lookup (key : str) (members : list (str * json)) : option json :=
  match members with
  | [] => None
  | (k, v) :: rest =>
      if list_eq_dec ascii_dec k key then Some v else dict_lookup key rest
  end.

Definition json_get (d : json) (key : str) (default : json) : outcome json :=
  match d with
  | JObj members =>
      Ret (match dict_lookup key members with Some v => v | None => default end)
  | _ => Raise (Exception (lit "object has no attribute 'get'"))
  end.

Definition model_id : str := lit "us.anthropic.claude-3-5-haiku-20241022-v1:0".
Definition application_json : str := lit "application/json".

Definition two_newlines : str := [newline; newline].

Definition no_orders_text (first_name last_name : str) : str :=
  lit "I couldn't find any orders for " ++ first_name ++ lit " " ++ last_name
  ++ lit ". Would you like to place a new order?".

Definition language_model_apology : str :=
  lit "I apologize, but I'm having trouble connecting to my language model. Please try again in a moment.".

(** The request built for the general chat reply. *)
Definition chat_request (prompt : str) : lm_request :=
  LmRequest model_id application_json application_json
    (LmBody (two_newlines ++ lit "Human: " ++ prompt ++ two_newlines
             ++ lit "Assistant:")
            2048 (Decimal false 7 (-1)) 1
            [two_newlines ++ lit "Human:"]).

Local Open Scope monad_scope.

Definition get_response_with_rag (env : adapters) (prompt : str) : M response :=
  try_except
    (match extract_customer_name prompt with
     | Some (first_name, last_name) =>
         orders <- call (QueryOrders first_name last_name)
                     (get_customer_orders env first_name last_name) ;;
         match orders with
         | _ :: _ =>
             let formatted_orders := format_order_table orders in
             ret (Response (lit "html") (JStr formatted_orders))
         | [] =>
             ret (Response (lit "text") (JStr (no_orders_text first_name last_name)))
         end
     | None =>
         let body := chat_request prompt in
         try_except
           (response_body <- call (InvokeModel model_id application_json
                                     application_json body)
                               (invoke_model env model_id application_json
                                  application_json body) ;;
            completion <- lift (json_get response_body (lit "completion") (JStr [])) ;;
            ret (Response (lit "text") completion))
           (fun e => ret (Response (lit "text") (JStr language_model_apology)))
     end)
    (fun e => raise e).

(** ** handle_customer_service_request *)

Definition init_bland (env : adapters) : bland_config :=
  BlandConfig [(lit "Authorization", getenv env (lit "BLAND_API_KEY"))]
              (lit "https://us.api.bland.ai/v1").

Definition cs_keywords : list str := [
  lit "speak to someone"; lit "talk to a person"; lit "customer service";
  lit "representative"; lit "speak to a human"; lit "talk to someone";
  lit "call me"; lit "contact me"
].

Definition ask_for_number : str :=
  lit "I'd be happy to have Sara, our customer service specialist, give you a call! "
  ++ lit "What's the best phone number to reach you at? You can share it in any format "
  ++ lit "like: 123-456-7890 or (123) 456-7890".

Definition call_task : str :=
  quoted "You are Sara from Rivertown Ball Company following up on a chat conversation they were just having, looking to ask them if they have any questions you can help with. 
                Start the call with: `Hi, this is Sara from Rivertown Ball Company!`
                Be warm, friendly and helpful while assisting with their questions about our artisanal wooden balls.
                Make them feel valued and excited about our products!".

Definition call_confirmation (formatted_phone : str) : str :=
  lit "Perfect! Sara will be calling you right now at "
  ++ slice (Some (-10)%Z) (Some (-7)%Z) formatted_phone ++ lit "-"
  ++ slice (Some (-7)%Z) (Some (-4)%Z) formatted_phone ++ lit "-"
  ++ slice (Some (-4)%Z) None formatted_phone ++ lit ". "
  ++ lit "She's looking forward to helping you with any questions you have about our "
  ++ lit "artisanal wooden balls!".

Definition call_failed_apology : str :=
  lit "I apologize, but I'm having trouble connecting with Sara at the moment. "
  ++ lit "Please try again in a few minutes or call us directly at (719) 266-2837".

Definition technical_difficulties : str :=
  lit "I apologize, but I'm experiencing technical difficulties arranging the call. "
  ++ lit "Please contact our customer service directly at (719) 266-2837".

(** The [data] dict of the call request. *)
Definition call_request (formatted_phone : str) : call_data :=
  CallData formatted_phone call_task (lit "turbo") (lit "Alexa") 12 true
           (Decimal false 8 (-1)).

Definition calls_url : str := lit "https://us.api.bland.ai/v1/calls".

(** [any(keyword in prompt.lower() for keyword in [...])] *)
Definition is_cs_request (prompt : str) : bool :=
  existsb (fun keyword => contains keyword (lower prompt)) cs_keywords.

(** [sum(c.isdigit() for c in prompt) >= 10] *)
Definition is_just_numbers (prompt : str) : bool :=
  10 <=? list_sum (map (fun c => Nat.b2n (isdigit c)) prompt).

(** The argument [phone_number] of the source (default None) is not read by
    the function; it is kept as [phone_number_arg]. *)
Definition handle_customer_service_request (env : adapters) (prompt : str)
    (phone_number_arg : option str) : M (option str) :=
  try_except
    (if is_cs_request prompt then
       ret (Some ask_for_number)
     else if is_just_numbers prompt then
       let formatted_phone :=
         lit "+1" ++ slice (Some (-10)%Z) None (digits_of prompt) in
       let data := call_request formatted_phone in
       let bland_config := init_bland env in
       response <- call (PostCall (base_url bland_config ++ lit "/calls") data
                           (headers bland_config))
                     (requests_post env (base_url bland_config ++ lit "/calls")
                        data (headers bland_config)) ;;
       if (status_code response =? 200)%Z then
         ret (Some (call_confirmation formatted_phone))
       else
         ret (Some call_failed_apology)
     else
       ret None)
    (fun e => ret (Some technical_difficulties)).

Local Close Scope monad_scope.

(** ** What a match is

    [matches r s g s' g']: the expression [r] matches a prefix of [s], leaving
    [s'], and takes the groups from [g] to [g']. This is the set of matches
    among which [run] picks the first. *)

Inductive matches : regex -> str -> groups -> str -> groups -> Prop :=
| M_Lit l s g :
    matches (Lit l) (l ++ s) g s g
| M_Rep1 (p : ascii -> bool) cs s g :
    cs <> [] -> forallb p cs = true ->
    matches (Rep1 p) (cs ++ s) g s g
| M_LazyAny cs s g :
    forallb (fun c => negb (Ascii.eqb c newline)) cs = true ->
    matches LazyAny (cs ++ s) g s g
| M_Opt_some r s g s' g' :
    matches r s g s' g' -> matches (Opt r) s g s' g'
| M_Opt_none r s g :
    matches (Opt r) s g s g
| M_Alt_left r1 r2 s g s' g' :
    matches r1 s g s' g' -> matches (Alt r1 r2) s g s' g'
| M_Alt_right r1 r2 s g s' g' :
    matches r2 s g s' g' -> matches (Alt r1 r2) s g s' g'
| M_Cat r1 r2 s g s1 g1 s2 g2 :
    matches r1 s g s1 g1 -> matches r2 s1 g1 s2 g2 ->
    matches (Cat r1 r2) s g s2 g2
| M_Group n r s g s' g' :
    matches r s g s' g' ->
    matches (Group n r) s g s' (set_group n (consumed s s') g').

Fixpoint group_free (r : regex) : bool :=
  match r with
  | Lit _ | Rep1 _ | LazyAny => true
  | Opt r1 => group_free r1
  | Alt r1 r2 | Cat r1 r2 => group_free r1 && group_free r2
  | Group _ _ => false
  end.

(** A sequence in which the two captured tokens are the only groups. *)
Inductive name_pattern : regex -> Prop :=
| NP_here rest :
    group_free rest = true -> name_pattern (Cat two_tokens rest)
| NP_later r rest :
    group_free r = true -> name_pattern rest -> name_pattern (Cat r rest).

(** A non-empty run of characters of one class. *)
Definition run_of (p : ascii -> bool) (t : str) : Prop :=
  t <> [] /\ forallb p t = true.


(** ** Pieces of the first pattern

    The first pattern, cut at the places where its matches are analysed. *)






(** ** Sample collaborators

    Concrete adapters on which the functions are run. *)

Definition maple_sphere : order :=
  Order (lit "abcd1234efgh") (lit "Maple Sphere") 2 (lit "2024-01-05")
        (Decimal false 3998 (-2)).

Definition store_outage : exn := Exception (lit "order store unavailable").
Definition model_outage : exn := Exception (lit "language model unavailable").
Definition call_outage : exn := Exception (lit "calling service unavailable").

(** Every collaborator answers: Jane Doe has one order, the model replies
    with a completion, the call is accepted with status 200. *)
Definition all_up : adapters :=
  Adapters
    (fun first last =>
       if list_eq_dec ascii_dec (first ++ lit " " ++ last) (lit "Jane Doe")
       then Ret [maple_sphere] else Ret [])
    (fun _ _ _ _ => Ret (JObj [(lit "completion", JStr (lit "Why did the ball roll away?"))]))
    (fun _ _ _ => Ret (HttpResponse 200 (lit "{}")))
    (fun _ => Some (lit "key")).

(** The order store raises. *)
Definition store_down : adapters :=
  Adapters (fun _ _ => Raise store_outage) (invoke_model all_up)
           (requests_post all_up) (getenv all_up).

(** The language model raises. *)
Definition model_down : adapters :=
  Adapters (get_customer_orders all_up) (fun _ _ _ _ => Raise model_outage)
           (requests_post all_up) (getenv all_up).

(** The language model replies with a payload that has no completion. *)
Definition model_blank : adapters :=
  Adapters (get_customer_orders all_up)
           (fun _ _ _ _ => Ret (JObj [(lit "stop_reason", JStr (lit "end_turn"))]))
           (requests_post all_up) (getenv all_up).

(** The calling service raises. *)
Definition call_down : adapters :=
  Adapters (get_customer_orders all_up) (invoke_model all_up)
           (fun _ _ _ => Raise call_outage) (getenv all_up).

(** Number of positions of [s] at which [sub] starts. *)
Fixpoint count_sub (sub s : str) : nat :=
  (if startswith sub s then 1 else 0) +
  match s with
  | [] => 0
  | _ :: s' => count_sub sub s'
  end.

(** ** Words a name pattern cannot do without *)

(** The words of which every match of a name pattern contains one. *)
Definition name_keywords : list str :=
  [lit "show"; lit "order"; lit "purchase"; lit "transaction"; lit "history"].

(** [mentions kws r]: every match of [r] runs over one of the words [kws],
    by the structure of [r] alone. *)
Fixpoint mentions (kws : list str) (r : regex) : bool :=
  match r with
  | Lit l => existsb (fun kw => contains kw l) kws
  | Rep1 _ | LazyAny | Opt _ => false
  | Alt r1 r2 => mentions kws r1 && mentions kws r2
  | Cat r1 r2 => mentions kws r1 || mentions kws r2
  | Group _ r1 => mentions kws r1
  end.

(** ** app.py: the chat page

    The part of the script that works on the session: the initialisation of
    the session state, the display of the history, the handling of a
    submitted prompt and the reset button. One run of the script is
    [script]; its inputs are what the two widgets return in that run. *)

Module App.

(** An entry of [st.session_state.messages]: the keys [role] and
    [content]. *)
Record message := Message { role : str; message_content : json }.

(** [st.session_state]; a field is None while its key is not in the
    session state. *)
Record session_state := SessionState {
  messages : option (list message);
  phone_number : option (option str);
  cs_mode : option bool
}.

(** What a run shows in the chat: [st.markdown] or the HTML component,
    inside [st.chat_message(role, avatar=...)]. *)
Inductive widget :=
| Markdown (role avatar : str) (body : json)
| Html (role avatar : str) (body : json) (height : Z) (scrolling : bool).

(** What the widgets return in one run: [st.chat_input(...)] and
    [st.button("Reset Chat")]. *)
Record inputs := Inputs { chat_input : option str; reset_clicked : bool }.

Definition no_input : inputs := Inputs None false.

(** How a run ends: at the end of the script, in [st.experimental_rerun()],
    or in an exception. *)
Inductive status := Done | Rerun | Failed (e : exn).

Record run := Run {
  state : session_state;
  screen : list widget;
  ended : status
}.

Definition assistant_avatar : str := lit "🟤".
Definition user_avatar : str := lit "👤".

Definition welcome : message :=
  Message (lit "assistant")
    (JStr (lit "Welcome to Rivertown Ball Company! How can I help you today?")).

(** Lines 119-129: the keys that are missing are created. *)
Definition init_session_state (st : session_state) : session_state :=
  SessionState
    (match messages st with None => Some [welcome] | Some ms => Some ms end)
    (match phone_number st with None => Some None | Some p => Some p end)
    (match cs_mode st with None => Some false | Some b => Some b end).

Definition str_eqb (a b : str) : bool :=
  if list_eq_dec ascii_dec a b then true else false.

(** The body of the loop over the history: one message in its chat
    container. It goes to the HTML component when
    [role == "assistant" and isinstance(content, dict) and
    content.get("type") == "html"], and then [content["content"]] raises if
    the key is missing; otherwise it goes to [st.markdown]. *)
Definition show_message (m : message) : outcome widget :=
  let avatar :=
    if str_eqb (role m) (lit "assistant") then assistant_avatar else user_avatar in
  let markdown := Ret (Markdown (role m) avatar (message_content m)) in
  if str_eqb (role m) (lit "assistant") then
    match message_content m with
    | JObj members =>
        match dict_lookup (lit "type") members with
        | Some (JStr t) =>
            if str_eqb t (lit "html") then
              match dict_lookup (lit "content") members with
              | Some inner => Ret (Html (role m) avatar inner 600 true)
              | None => Raise (Exception (lit "KeyError: 'content'"))
              end
            else markdown
        | _ => markdown
        end
    | _ => markdown
    end
  else markdown.

(** Lines 135-141: the history is shown message by message; an exception
    ends the loop, with the messages before it on the screen. *)
Fixpoint show_history (ms : list message) : list widget * option exn :=
  match ms with
  | [] => ([], None)
  | m :: rest =>
      match show_message m with
      | Ret w => let (ws, e) := show_history rest in (w :: ws, e)
      | Raise e => ([], Some e)
      end
  end.

Definition thinking : widget :=
  Markdown (lit "assistant") assistant_avatar (JStr (lit "Thinking...")).

(** Lines 170-176: the reset button. *)
Definition sidebar (inp : inputs) (st : session_state) (shown : list widget) : run :=
  if reset_clicked inp then
    Run (SessionState (Some []) (Some None) (Some false)) shown Rerun
  else Run st shown Done.

(** One run of the script. [get_combined_response] is the function of
    [chat_service], which is not among the sources: it is a parameter, from
    the prompt to the response dict or an exception, and it is taken not to
    write the session state itself. *)
Definition script (get_combined_response : str -> outcome response)
    (st0 : session_state) (inp : inputs) : run :=
  let st := init_session_state st0 in
  let ms := match messages st with Some ms => ms | None => [] end in
  match show_history ms with
  | (shown, Some e) => Run st shown (Failed e)
  | (shown, None) =>
      match chat_input inp with
      | Some (c :: p) =>
          let prompt := c :: p in
          let ms1 := ms ++ [Message (lit "user") (JStr prompt)] in
          let st1 := SessionState (Some ms1) (phone_number st) (cs_mode st) in
          let shown1 := shown ++ [Markdown (lit "user") user_avatar (JStr prompt)] in
          match get_combined_response prompt with
          | Raise e => Run st1 (shown1 ++ [thinking]) (Failed e)
          | Ret response =>
              let ms2 := ms1 ++ [Message (lit "assistant") (content response)] in
              let st2 := SessionState (Some ms2) (phone_number st) (cs_mode st) in
              sidebar inp st2
                (shown1 ++ [Markdown (lit "assistant") assistant_avatar
                              (content response)])
          end
      | _ => sidebar inp st shown
      end
  end.

(** A user interaction: the run it triggers and, when that run ends in
    [st.experimental_rerun()], the run that follows, in which no widget
    reports an input. *)
Definition interaction (get_combined_response : str -> outcome response)
    (st : session_state) (inp : inputs) : run :=
  let r := script get_combined_response st inp in
  match ended r with
  | Rerun => script get_combined_response (state r) no_input
  | _ => r
  end.

(** The session state after a sequence of interactions. *)
Definition session (get_combined_response : str -> outcome response)
    (st : session_state) (inps : list inputs) : session_state :=
  fold_left (fun st inp => state (interaction get_combined_response st inp))
            inps st.

(** The two flags are cleared, or their keys are not set yet. *)
Definition flags_clear (st : session_state) : Prop :=
  phone_number st = Some None /\ cs_mode st = Some false.

Definition flags_unset_or_clear (st : session_state) : Prop :=
  (phone_number st = None \/ phone_number st = Some None) /\
  (cs_mode st = None \/ cs_mode st = Some false).

(** The session state of a new session: no key is set. *)
Definition new_session : session_state := SessionState None None None.

End App.

(** * Properties *)

(** ** Strings *)


(** ** The phone-number extractor *)



(** ** Substrings and digit counts *)

Lemma startswith_spec (p s : str) :
  startswith p s = true <-> exists rest, s = p ++ rest.
Proof.
  revert s; induction p as [|a p IH]; intros s; simpl.
  - split; [intros _; now exists s | reflexivity].
  - destruct s as [|b s].
    + split; [discriminate | intros [rest H]; discriminate].
    + rewrite andb_true_iff, Ascii.eqb_eq, IH. split.
      * intros [-> [rest ->]]. now exists rest.
      * intros [rest [= -> ->]]. split; [reflexivity | now exists rest].
Qed.

Lemma contains_spec (sub s : str) :
  contains sub s = true <-> occurs_in sub s.
Proof.
  unfold occurs_in. induction s as [|c s IH].
  - simpl. rewrite orb_false_r, startswith_spec. split.
    + intros [rest H]. exists [], rest. exact H.
    + intros [pre [post H]]. destruct pre; [now exists post | discriminate].
  - simpl. rewrite orb_true_iff, startswith_spec, IH. split.
    + intros [[rest H] | [pre [post H]]].
      * exists [], rest. exact H.
      * exists (c :: pre), post. simpl. now rewrite H.
    + intros [[|c' pre] [post H]].
      * left. now exists post.
      * right. injection H as _ H. now exists pre, post.
Qed.

Lemma digit_count_length (prompt : str) :
  list_sum (map (fun c => Nat.b2n (isdigit c)) prompt)
  = length (digits_of prompt).
Proof.
  unfold digits_of.
  induction prompt as [|c s IH]; simpl; [reflexivity|].
  rewrite IH. now destruct (isdigit c).
Qed.

Lemma is_just_numbers_spec (prompt : str) :
  is_just_numbers prompt = true <-> 10 <= length (digits_of prompt).
Proof.
  unfold is_just_numbers. rewrite digit_count_length. apply Nat.leb_le.
Qed.

Lemma is_cs_request_spec (prompt : str) :
  is_cs_request prompt = true <->
  exists keyword, In keyword cs_keywords /\ occurs_in keyword (lower prompt).
Proof.
  unfold is_cs_request. rewrite existsb_exists.
  split; intros [kw [Hin H]]; exists kw; split; auto;
    now apply contains_spec.
Qed.




(** ** The call-back handler *)

(** Without a trigger phrase and with 10 digit characters or more, the only
    adapter call is the call request for the normalized number. *)
Lemma handler_call_trace
    (env : adapters) (prompt : str) (phone_number_arg : option str) :
  is_cs_request prompt = false -> is_just_numbers prompt = true ->
  trace_of (handle_customer_service_request env prompt phone_number_arg)
  = [PostCall calls_url
       (call_request (lit "+1" ++ slice (Some (-10)%Z) None (digits_of prompt)))
       (headers (init_bland env))].
Proof.
  intros Hcs Hdigits. unfold handle_customer_service_request.
  rewrite Hcs, Hdigits.
  change (base_url (init_bland env) ++ lit "/calls") with calls_url.
  unfold trace_of, call, bind, try_except.
  destruct (requests_post env calls_url _ _) as [reply|e]; simpl.
  - destruct (status_code reply =? 200)%Z; reflexivity.
  - reflexivity.
Qed.

(** C5. An utterance whose lower-cased text contains one of the trigger
    phrases gets the fixed request for a callback number, and no call to
    any adapter is made in that turn, however many digits it contains. *)
Theorem trigger_phrase_asks_for_number
    (env : adapters) (prompt : str) (phone_number_arg : option str) :
  (exists keyword, In keyword cs_keywords /\ occurs_in keyword (lower prompt)) ->
  handle_customer_service_request env prompt phone_number_arg
  = (Ret (Some ask_for_number), []).
Proof.
  intros H. apply is_cs_request_spec in H.
  unfold handle_customer_service_request. rewrite H. reflexivity.
Qed.

Lemma trigger_phrase_asks_for_number_witness :
  handle_customer_service_request all_up
    (lit "Please CALL ME at (719) 555-0199") None
  = (Ret (Some ask_for_number), []).
Proof.
  apply trigger_phrase_asks_for_number.
  exists (lit "call me"). split.
  - simpl. tauto.
  - apply contains_spec. reflexivity.
Defined.



(** ** The two normalizations of a phone number *)

Lemma extract_phone_number_some (prompt number : str) :
  extract_phone_number prompt = Some number ->
  10 <= length (digits_of prompt) /\
  number = lit "+1" ++ skipn (length (digits_of prompt) - 10) (digits_of prompt).
Proof.
  unfold extract_phone_number.
  destruct (Nat.eqb_spec (length (digits_of prompt)) 10) as [H10|_].
  - intros [= <-]. rewrite H10. split; [lia | reflexivity].
  - destruct (Nat.eqb_spec (length (digits_of prompt)) 11) as [H11|_];
      [|cbn; discriminate].
    rewrite H11. destruct (digits_of prompt) as [|c ds]; [discriminate H11|].
    change (startswith (lit "1") (c :: ds)) with (Ascii.eqb "1" c && true).
    destruct (Ascii.eqb_spec "1" c) as [<-|_]; [|cbn; discriminate].
    intros [= <-]. split; [lia | reflexivity].
Qed.



(** ** The order formatter *)


Lemma fold_left_append {A : Type} (f : A -> str) (l : list A) (acc : str) :
  fold_left (fun html x => html ++ f x) l acc = acc ++ concat (map f l).
Proof.
  revert acc; induction l as [|x l IH]; intros acc; simpl.
  - now rewrite app_nil_r.
  - rewrite IH. now rewrite <- app_assoc.
Qed.




(** C9. For the empty list the formatter returns the notice that no orders
    were found: the notice occurs exactly once in the result, and no order
    block does. *)
Theorem format_order_table_empty :
  format_order_table [] = lit "<div>No orders found.</div>" /\
  count_sub (lit "No orders found") (format_order_table []) = 1 /\
  count_sub (lit "Order #") (format_order_table []) = 0.
Proof.
  repeat split.
Qed.



(** ** The router *)

(** The order-lookup branch: the store is queried once, and its outcome
    decides the result. *)
Lemma order_lookup_run (env : adapters) (prompt first_name last_name : str) :
  extract_customer_name prompt = Some (first_name, last_name) ->
  get_response_with_rag env prompt
  = (match get_customer_orders env first_name last_name with
     | Ret [] =>
         Ret (Response (lit "text") (JStr (no_orders_text first_name last_name)))
     | Ret orders =>
         Ret (Response (lit "html") (JStr (format_order_table orders)))
     | Raise e => Raise e
     end, [QueryOrders first_name last_name]).
Proof.
  intros Hname. unfold get_response_with_rag. rewrite Hname.
  unfold call, bind, try_except.
  destruct (get_customer_orders env first_name last_name) as [[|o orders]|e];
    reflexivity.
Qed.

(** The chat branch: the model is invoked once, and every outcome of the
    invocation is turned into a response. *)
Lemma chat_run (env : adapters) (prompt : str) :
  extract_customer_name prompt = None ->
  get_response_with_rag env prompt
  = (match invoke_model env model_id application_json application_json
             (chat_request prompt) with
     | Ret (JObj members) =>
         Ret (Response (lit "text")
                (match dict_lookup (lit "completion") members with
                 | Some v => v
                 | None => JStr []
                 end))
     | _ => Ret (Response (lit "text") (JStr language_model_apology))
     end,
     [InvokeModel model_id application_json application_json
        (chat_request prompt)]).
Proof.
  intros Hname. unfold get_response_with_rag. rewrite Hname.
  unfold call, bind, try_except, lift.
  destruct (invoke_model env model_id application_json application_json
              (chat_request prompt)) as [[| | | | |members]|e];
    reflexivity.
Qed.



(** C7. On the chat fallback the model is invoked once. When the invocation
    raises, the reply is the fixed apology, of type text; when it succeeds
    with a payload that has no completion member, the reply is the empty
    text. Neither case raises. *)
Theorem chat_fallback_failures (env : adapters) (prompt : str) :
  extract_customer_name prompt = None ->
  let run := get_response_with_rag env prompt in
  let reply := invoke_model env model_id application_json application_json
                 (chat_request prompt) in
  trace_of run
  = [InvokeModel model_id application_json application_json
       (chat_request prompt)] /\
  (forall e, reply = Raise e ->
     outcome_of run
     = Ret (Response (lit "text")
              (JStr (lit "I apologize, but I'm having trouble connecting to my language model. Please try again in a moment.")))) /\
  (forall members,
     reply = Ret (JObj members) ->
     dict_lookup (lit "completion") members = None ->
     outcome_of run = Ret (Response (lit "text") (JStr []))).
Proof.
  intros Hname run reply. subst run reply. rewrite (chat_run env _ Hname).
  split; [reflexivity|]. split.
  - intros e ->. reflexivity.
  - intros members -> ->. reflexivity.
Qed.

Lemma chat_fallback_failures_witness :
  outcome_of (get_response_with_rag model_down (lit "tell me a joke"))
  = Ret (Response (lit "text") (JStr language_model_apology)) /\
  outcome_of (get_response_with_rag model_blank (lit "tell me a joke"))
  = Ret (Response (lit "text") (JStr [])).
Proof.
  split.
  - destruct (chat_fallback_failures model_down (lit "tell me a joke"))
      as [_ [Hraise _]]; [vm_compute; reflexivity|].
    apply (Hraise model_outage). reflexivity.
  - destruct (chat_fallback_failures model_blank (lit "tell me a joke"))
      as [_ [_ Hblank]]; [vm_compute; reflexivity|].
    apply (Hblank [(lit "stop_reason", JStr (lit "end_turn"))]); reflexivity.
Defined.




(** ** The matcher returns matches *)

Lemma strip_prefix_spec (p s rest : str) :
  strip_prefix p s = Some rest <-> s = p ++ rest.
Proof.
  revert s; induction p as [|a p IH]; intros s; simpl.
  - split; [now intros [= ->] | now intros ->].
  - destruct s as [|b s]; [split; discriminate|].
    destruct (Ascii.eqb_spec a b) as [->|Hne].
    + rewrite IH. split; [now intros -> | now intros [= ->]].
    + split; [discriminate | intros [= H _]; now destruct Hne].
Qed.

Lemma or_else_some {A : Type} (x y : option A) (v : A) :
  or_else x y = Some v -> x = Some v \/ (x = None /\ y = Some v).
Proof.
  destruct x; simpl; intros H; [left | right]; auto.
Qed.

Lemma greedy_sound (p : ascii -> bool) (k : str -> option groups) (s : str)
    (x : groups) :
  greedy p k s = Some x ->
  exists cs rest, s = cs ++ rest /\ run_of p cs /\ k rest = Some x.
Proof.
  induction s as [|c s IH]; simpl; [discriminate|].
  destruct (p c) eqn:Hp; [|discriminate].
  intros H. apply or_else_some in H. destruct H as [H | [_ H]].
  - destruct (IH H) as [cs [rest [-> [[_ Hall] Hk]]]].
    exists (c :: cs), rest. repeat split; simpl; auto.
    + discriminate.
    + now rewrite Hp.
  - exists [c], s. repeat split; simpl; auto.
    + discriminate.
    + now rewrite Hp.
Qed.

Lemma lazy_any_sound (k : str -> option groups) (s : str) (x : groups) :
  lazy_any k s = Some x ->
  exists cs rest,
    s = cs ++ rest /\
    forallb (fun c => negb (Ascii.eqb c newline)) cs = true /\
    k rest = Some x.
Proof.
  induction s as [|c s IH]; simpl; intros H; apply or_else_some in H.
  - destruct H as [H | [_ H]]; [|discriminate]. now exists [], [].
  - destruct H as [H | [_ H]]; [now exists [], (c :: s)|].
    destruct (Ascii.eqb c newline) eqn:Hc; [discriminate|].
    destruct (IH H) as [cs [rest [-> [Hall Hk]]]].
    exists (c :: cs), rest. repeat split; simpl; auto. now rewrite Hc.
Qed.

Lemma run_sound (r : regex) :
  forall s g k x,
    run r s g k = Some x ->
    exists s' g', matches r s g s' g' /\ k s' g' = Some x.
Proof.
  induction r as [l|p| |r IH|r1 IH1 r2 IH2|r1 IH1 r2 IH2|n r IH];
    intros s g k x H; simpl in H.
  - destruct (strip_prefix l s) as [s'|] eqn:Hl; [|discriminate].
    apply strip_prefix_spec in Hl. subst s.
    exists s', g. split; [constructor | exact H].
  - apply greedy_sound in H. destruct H as [cs [rest [-> [[Hne Hall] Hk]]]].
    exists rest, g. split; [now constructor | exact Hk].
  - apply lazy_any_sound in H. destruct H as [cs [rest [-> [Hall Hk]]]].
    exists rest, g. split; [now constructor | exact Hk].
  - apply or_else_some in H. destruct H as [H | [_ H]].
    + destruct (IH _ _ _ _ H) as [s' [g' [Hm Hk]]].
      exists s', g'. split; [now apply M_Opt_some | exact Hk].
    + exists s, g. split; [apply M_Opt_none | exact H].
  - apply or_else_some in H. destruct H as [H | [_ H]].
    + destruct (IH1 _ _ _ _ H) as [s' [g' [Hm Hk]]].
      exists s', g'. split; [now apply M_Alt_left | exact Hk].
    + destruct (IH2 _ _ _ _ H) as [s' [g' [Hm Hk]]].
      exists s', g'. split; [now apply M_Alt_right | exact Hk].
  - destruct (IH1 _ _ _ _ H) as [s1 [g1 [Hm1 H2]]].
    destruct (IH2 _ _ _ _ H2) as [s2 [g2 [Hm2 Hk]]].
    exists s2, g2. split; [now apply M_Cat with s1 g1 | exact Hk].
  - destruct (IH _ _ _ _ H) as [s' [g' [Hm Hk]]].
    exists s', (set_group n (consumed s s') g').
    split; [now constructor | exact Hk].
Qed.

Lemma search_sound (r : regex) (s : str) (m : groups) :
  search r s = Some m ->
  exists skipped s0 s',
    s = skipped ++ s0 /\ matches r s0 [] s' m.
Proof.
  induction s as [|c s IH]; simpl; intros H; apply or_else_some in H.
  - destruct H as [H | [_ H]]; [|discriminate].
    apply run_sound in H. destruct H as [s' [g' [Hm [= ->]]]].
    now exists [], [], s'.
  - destruct H as [H | [_ H]].
    + apply run_sound in H. destruct H as [s' [g' [Hm [= ->]]]].
      now exists [], (c :: s), s'.
    + destruct (IH H) as [skipped [s0 [s' [-> Hm]]]].
      now exists (c :: skipped), s0, s'.
Qed.

(** ** What the name patterns capture *)

Lemma matches_suffix r s g s' g' :
  matches r s g s' g' -> exists cs, s = cs ++ s'.
Proof.
  induction 1;
    try (now eexists);
    try assumption.
  - now exists [].
  - destruct IHmatches1 as [c1 ->]. destruct IHmatches2 as [c2 ->].
    exists (c1 ++ c2). now rewrite app_assoc.
Qed.

Lemma consumed_app (cs s : str) : consumed (cs ++ s) s = cs.
Proof.
  unfold consumed. rewrite length_app.
  replace (length cs + length s - length s) with (length cs + 0) by lia.
  rewrite firstn_app_2. simpl. apply app_nil_r.
Qed.

Lemma matches_group_free r s g s' g' :
  matches r s g s' g' -> group_free r = true -> g' = g.
Proof.
  induction 1; simpl; intros Hfree; try reflexivity; auto.
  - apply andb_true_iff in Hfree. tauto.
  - apply andb_true_iff in Hfree. tauto.
  - apply andb_true_iff in Hfree. destruct Hfree as [H1 H2].
    rewrite (IHmatches2 H2). auto.
  - discriminate.
Qed.

Lemma matches_two_tokens s g s' g' :
  matches two_tokens s g s' g' ->
  exists a w b,
    s = a ++ w ++ b ++ s' /\
    run_of is_alpha a /\ run_of isspace w /\ run_of is_alpha b /\
    g' = set_group 2 b (set_group 1 a g).
Proof.
  unfold two_tokens, seq, letters, ws; simpl. intros H.
  inversion H as [| | | | | | |? ? ? ? s1 g1 ? ? H1 H2|]; subst; clear H.
  inversion H1 as [| | | | | | | |? ? ? ? ? ? Ha]; subst; clear H1.
  inversion Ha as [|? a ? ? Hne_a Hall_a| | | | | | |]; subst; clear Ha.
  inversion H2 as [| | | | | | |? ? ? ? s2 g2 ? ? Hw H3|]; subst; clear H2.
  inversion Hw as [|? w ? ? Hne_w Hall_w| | | | | | |]; subst; clear Hw.
  inversion H3 as [| | | | | | |? ? ? ? s3 g3 ? ? Hb H4|]; subst; clear H3.
  inversion Hb as [| | | | | | | |? ? ? ? ? ? Hb']; subst; clear Hb.
  inversion Hb' as [|? b ? ? Hne_b Hall_b| | | | | | |]; subst; clear Hb'.
  inversion H4 as [? ? ?| | | | | | | |]; subst; clear H4.
  simpl. rewrite !consumed_app.
  exists a, w, b. repeat split; auto.
Qed.

Lemma name_pattern_captures r :
  name_pattern r ->
  forall s g s' g',
    matches r s g s' g' ->
    exists pre a w b post,
      s = pre ++ a ++ w ++ b ++ post /\
      run_of is_alpha a /\ run_of isspace w /\ run_of is_alpha b /\
      g' = set_group 2 b (set_group 1 a g).
Proof.
  induction 1 as [rest Hfree | r rest Hfree Hrest IH]; intros s g s' g' H;
    inversion H as [| | | | | | |? ? ? ? s1 g1 ? ? H1 H2|]; subst; clear H.
  - apply matches_two_tokens in H1.
    destruct H1 as [a [w [b [-> [Ha [Hw [Hb ->]]]]]]].
    rewrite (matches_group_free _ _ _ _ _ H2 Hfree).
    exists [], a, w, b, s1. auto 6.
  - rewrite (matches_group_free _ _ _ _ _ H1 Hfree) in H2.
    destruct (matches_suffix _ _ _ _ _ H1) as [c1 ->].
    destruct (IH _ _ _ _ H2) as [pre [a [w [b [post [-> [Ha [Hw [Hb ->]]]]]]]]].
    exists (c1 ++ pre), a, w, b, post. rewrite <- app_assoc. auto 6.
Qed.

Lemma patterns_capture_names : Forall name_pattern patterns.
Proof.
  unfold patterns, seq; simpl.
  repeat (apply Forall_cons || apply Forall_nil);
    repeat (first [ apply NP_here; reflexivity
                  | apply NP_later; [reflexivity|] ]).
Qed.

(** ** The matcher finds a match whenever there is one *)

Lemma or_else_is_some {A : Type} (x y : option A) :
  (exists v, x = Some v) \/ (exists v, y = Some v) ->
  exists v, or_else x y = Some v.
Proof.
  intros [[v ->] | [v Hy]]; simpl; [now exists v|].
  destruct x as [u|]; simpl; [now exists u | now exists v].
Qed.

Lemma greedy_complete (p : ascii -> bool) (k : str -> option groups)
    (cs rest : str) :
  run_of p cs -> (exists x, k rest = Some x) ->
  exists x, greedy p k (cs ++ rest) = Some x.
Proof.
  intros [Hne Hall] Hk.
  induction cs as [|c cs IH]; [now destruct Hne|].
  simpl in Hall. apply andb_true_iff in Hall. destruct Hall as [Hc Hall].
  simpl. rewrite Hc. apply or_else_is_some.
  destruct cs as [|c' cs'].
  - right. exact Hk.
  - left. apply IH; [discriminate | exact Hall].
Qed.

Lemma lazy_any_complete (k : str -> option groups) (cs rest : str) :
  forallb (fun c => negb (Ascii.eqb c newline)) cs = true ->
  (exists x, k rest = Some x) ->
  exists x, lazy_any k (cs ++ rest) = Some x.
Proof.
  intros Hall Hk.
  induction cs as [|c cs IH].
  - simpl. destruct rest; simpl; apply or_else_is_some; now left.
  - simpl in Hall. apply andb_true_iff in Hall. destruct Hall as [Hc Hall].
    simpl. apply or_else_is_some. right.
    apply negb_true_iff in Hc. rewrite Hc. now apply IH.
Qed.

Lemma run_complete r s g s' g' :
  matches r s g s' g' ->
  forall k, (exists x, k s' g' = Some x) -> exists x, run r s g k = Some x.
Proof.
  induction 1 as [l s g|p cs s g Hne Hall|cs s g Hall|r s g s' g' _ IH|r s g
                 |r1 r2 s g s' g' _ IH|r1 r2 s g s' g' _ IH
                 |r1 r2 s g s1 g1 s2 g2 _ IH1 _ IH2|n r s g s' g' _ IH];
    intros k Hk; simpl.
  - assert (Hl : strip_prefix l (l ++ s) = Some s) by now apply strip_prefix_spec.
    now rewrite Hl.
  - apply greedy_complete; [now split | exact Hk].
  - now apply lazy_any_complete.
  - apply or_else_is_some. left. now apply IH.
  - apply or_else_is_some. now right.
  - apply or_else_is_some. left. now apply IH.
  - apply or_else_is_some. right. now apply IH.
  - apply IH1. now apply IH2.
  - now apply IH.
Qed.

Lemma search_complete (r : regex) (skipped s0 s' : str) (m : groups) :
  matches r s0 [] s' m ->
  exists m', search r (skipped ++ s0) = Some m'.
Proof.
  intros Hm.
  assert (Hrun : exists x, run r s0 [] (fun _ g => Some g) = Some x)
    by (apply (run_complete _ _ _ _ _ Hm); now eexists).
  induction skipped as [|c skipped IH].
  - destruct s0; simpl; apply or_else_is_some; now left.
  - simpl. apply or_else_is_some. now right.
Qed.

(** ** Casing *)









(** ** The name extractor *)

Lemma search_none_iff (r : regex) (text : str) :
  search r text = None <->
  ~ exists skipped s0 s' m, text = skipped ++ s0 /\ matches r s0 [] s' m.
Proof.
  split.
  - intros Hnone [skipped [s0 [s' [m [-> Hm]]]]].
    destruct (search_complete r skipped s0 s' m Hm) as [m' Hsome].
    congruence.
  - intros Hno. destruct (search r text) as [m|] eqn:Hs; [|reflexivity].
    destruct (search_sound _ _ _ Hs) as [skipped [s0 [s' [Heq Hm]]]].
    destruct Hno. now exists skipped, s0, s', m.
Qed.

Lemma search_name_pattern (r : regex) (text : str) (m : groups) :
  name_pattern r -> search r text = Some m ->
  exists pre a w b post,
    text = pre ++ a ++ w ++ b ++ post /\
    run_of is_alpha a /\ run_of isspace w /\ run_of is_alpha b /\
    group m 1 = Some a /\ group m 2 = Some b.
Proof.
  intros Hr Hs.
  destruct (search_sound _ _ _ Hs) as [skipped [s0 [s' [-> Hm]]]].
  destruct (name_pattern_captures r Hr _ _ _ _ Hm)
    as [pre [a [w [b [post [-> [Ha [Hw [Hb ->]]]]]]]]].
  exists (skipped ++ pre), a, w, b, post. rewrite <- app_assoc. auto 7.
Qed.


Lemma first_match_none (pats : list regex) (text : str) :
  Forall name_pattern pats ->
  first_match pats text = None <->
  Forall (fun p => search p text = None) pats.
Proof.
  induction 1 as [|r pats Hr Hpats IH]; simpl.
  - split; [constructor | reflexivity].
  - destruct (search r text) as [m|] eqn:Hs.
    + destruct (search_name_pattern r text m Hr Hs)
        as [pre [a [w [b [post [_ [_ [_ [_ [G1 G2]]]]]]]]]].
      rewrite G1, G2. split; [discriminate|].
      intros Hall. inversion Hall; congruence.
    + rewrite IH. split; [now constructor | now inversion 1].
Qed.

(** ** Utterances of the form "show me <first> <last>" *)










(** Inversion of matches, one constructor at a time. *)












(** Unfolding equations of the matcher. *)

















(** * Further properties of the code *)

(** ** extract_phone_number *)

Lemma digits_of_all_digits (s : str) : forallb isdigit (digits_of s) = true.
Proof.
  unfold digits_of. induction s as [|c s IH]; simpl; [reflexivity|].
  destruct (isdigit c) eqn:Hc; simpl; [now rewrite Hc|exact IH].
Qed.

Lemma digits_of_digits (d : str) :
  forallb isdigit d = true -> digits_of d = d.
Proof.
  unfold digits_of. induction d as [|c d IH]; simpl; [reflexivity|].
  intros H. apply andb_true_iff in H. destruct H as [Hc Hd].
  rewrite Hc. now rewrite IH.
Qed.

Lemma forallb_skipn {A : Type} (p : A -> bool) (n : nat) (l : list A) :
  forallb p l = true -> forallb p (skipn n l) = true.
Proof.
  revert l; induction n as [|n IH]; intros [|x l]; simpl; auto.
  intros H. apply andb_true_iff in H. now apply IH.
Qed.

(** X1. A number returned by the extractor is "+1" followed by exactly ten
    digit characters, whatever the input was. *)
Theorem extract_phone_number_shape (prompt number : str) :
  extract_phone_number prompt = Some number ->
  exists d,
    number = lit "+1" ++ d /\ length d = 10 /\ forallb isdigit d = true.
Proof.
  intros H. destruct (extract_phone_number_some _ _ H) as [Hlen ->].
  eexists. split; [reflexivity|]. split.
  - rewrite length_skipn.
    unfold extract_phone_number in H.
    destruct (Nat.eqb_spec (length (digits_of prompt)) 10) as [->|_];
      [reflexivity|].
    destruct (Nat.eqb_spec (length (digits_of prompt)) 11) as [->|_];
      [reflexivity | discriminate H].
  - apply forallb_skipn, digits_of_all_digits.
Qed.

Lemma extract_phone_number_shape_witness :
  exists d,
    lit "+17195551234" = lit "+1" ++ d /\ length d = 10 /\
    forallb isdigit d = true.
Proof.
  apply (extract_phone_number_shape (lit "call 1-719-555-1234 please")).
  reflexivity.
Defined.

(** X2. The extractor accepts its own results and returns them unchanged. *)
Theorem extract_phone_number_idempotent (prompt number : str) :
  extract_phone_number prompt = Some number ->
  extract_phone_number number = Some number.
Proof.
  intros H. destruct (extract_phone_number_shape _ _ H) as [d [-> [Hlen Hd]]].
  unfold extract_phone_number.
  assert (Hdigits : digits_of (lit "+1" ++ d) = "1"%char :: d).
  { change (lit "+1" ++ d) with ("+"%char :: "1"%char :: d).
    unfold digits_of. simpl. fold (digits_of d).
    now rewrite (digits_of_digits d Hd). }
  rewrite Hdigits. simpl length. rewrite Hlen. reflexivity.
Qed.

Lemma extract_phone_number_idempotent_witness :
  extract_phone_number (lit "+17195551234") = Some (lit "+17195551234").
Proof.
  apply (extract_phone_number_idempotent (lit "(719) 555-1234")).
  reflexivity.
Defined.

(** ** handle_customer_service_request *)

Lemma lower_app (a b : str) : lower (a ++ b) = lower a ++ lower b.
Proof. apply map_app. Qed.

(** X3. A trigger phrase counts in any casing: when a stretch of the
    utterance lower-cases to one of the phrases, the reply is the request
    for a number and no adapter is called. *)
Theorem trigger_phrase_any_casing
    (env : adapters) (pre variant post keyword : str)
    (phone_number_arg : option str) :
  In keyword cs_keywords -> lower variant = keyword ->
  handle_customer_service_request env (pre ++ variant ++ post) phone_number_arg
  = (Ret (Some ask_for_number), []).
Proof.
  intros Hin Hlow.
  assert (Hcs : is_cs_request (pre ++ variant ++ post) = true).
  { apply is_cs_request_spec. exists keyword. split; [exact Hin|].
    exists (lower pre), (lower post). now rewrite !lower_app, Hlow. }
  unfold handle_customer_service_request. now rewrite Hcs.
Qed.

Lemma trigger_phrase_any_casing_witness :
  handle_customer_service_request all_up
    (lit "I need to Speak To A Human now") None
  = (Ret (Some ask_for_number), []).
Proof.
  apply (trigger_phrase_any_casing all_up (lit "I need to ")
           (lit "Speak To A Human") (lit " now") (lit "speak to a human")).
  - simpl. tauto.
  - reflexivity.
Defined.

(** X4. On the call path a failure of the calling service is answered, not
    raised: when the request raises, the reply is the technical-difficulties
    text, and when it returns a status other than 200, the reply is the
    apology with the company's number. *)
Theorem call_failures_are_answered
    (env : adapters) (prompt : str) (phone_number_arg : option str) :
  is_cs_request prompt = false ->
  10 <= length (digits_of prompt) ->
  let number := lit "+1" ++ slice (Some (-10)%Z) None (digits_of prompt) in
  let reply := requests_post env calls_url (call_request number)
                 (headers (init_bland env)) in
  let run := handle_customer_service_request env prompt phone_number_arg in
  (forall e, reply = Raise e ->
     outcome_of run = Ret (Some technical_difficulties)) /\
  (forall r, reply = Ret r -> status_code r <> 200%Z ->
     outcome_of run = Ret (Some call_failed_apology)).
Proof.
  intros Hcs Hdigits number reply run.
  apply is_just_numbers_spec in Hdigits.
  subst run reply. unfold handle_customer_service_request.
  rewrite Hcs, Hdigits. fold number.
  change (base_url (init_bland env) ++ lit "/calls") with calls_url.
  unfold outcome_of, call, bind, try_except. split.
  - intros e ->. reflexivity.
  - intros r -> Hstatus. apply Z.eqb_neq in Hstatus. now rewrite Hstatus.
Qed.

Lemma call_failures_are_answered_witness :
  outcome_of (handle_customer_service_request call_down (lit "(719) 555-0199") None)
  = Ret (Some technical_difficulties).
Proof.
  destruct (call_failures_are_answered call_down (lit "(719) 555-0199") None)
    as [Hraise _]; [reflexivity | vm_compute; lia |].
  apply (Hraise call_outage). reflexivity.
Defined.






(** X6. The handler does not look at the API key: when BLAND_API_KEY is not
    set, the call request is posted all the same, with None as its
    Authorization header. *)
Theorem call_posted_without_api_key
    (env : adapters) (prompt : str) (phone_number_arg : option str) :
  getenv env (lit "BLAND_API_KEY") = None ->
  is_cs_request prompt = false ->
  10 <= length (digits_of prompt) ->
  trace_of (handle_customer_service_request env prompt phone_number_arg)
  = [PostCall calls_url
       (call_request (lit "+1" ++ slice (Some (-10)%Z) None (digits_of prompt)))
       [(lit "Authorization", None)]].
Proof.
  intros Hkey Hcs Hdigits. apply is_just_numbers_spec in Hdigits.
  rewrite (handler_call_trace env prompt _ Hcs Hdigits).
  unfold init_bland. cbn [headers]. now rewrite Hkey.
Qed.

Lemma call_posted_without_api_key_witness :
  let env := Adapters (get_customer_orders all_up) (invoke_model all_up)
               (requests_post all_up) (fun _ => None) in
  trace_of (handle_customer_service_request env (lit "719 555 0199") None)
  = [PostCall calls_url (call_request (lit "+17195550199"))
       [(lit "Authorization", None)]].
Proof.
  intros env.
  apply (call_posted_without_api_key env (lit "719 555 0199") None);
    [reflexivity | reflexivity | vm_compute; lia].
Defined.



(** ** get_response_with_rag *)

(** X8. Every call of the router makes exactly one adapter call: the order
    store's query when a name is extracted, the model's invocation
    otherwise. It never posts a call request. *)
Theorem router_makes_one_adapter_call (env : adapters) (prompt : str) :
  exists ev,
    trace_of (get_response_with_rag env prompt) = [ev] /\
    (forall url data hdrs, ev <> PostCall url data hdrs) /\
    ev = match extract_customer_name prompt with
         | Some (first_name, last_name) => QueryOrders first_name last_name
         | None => InvokeModel model_id application_json application_json
                     (chat_request prompt)
         end.
Proof.
  destruct (extract_customer_name prompt) as [[first_name last_name]|] eqn:Hname.
  - rewrite (order_lookup_run env _ _ _ Hname).
    eexists. split; [reflexivity|]. split; [discriminate | reflexivity].
  - rewrite (chat_run env _ Hname).
    eexists. split; [reflexivity|]. split; [discriminate | reflexivity].
Qed.

(** X9. A response of the router has type "text" or "html"; it has type
    "html" exactly when a name was extracted and the order store returned
    at least one record, and its content is then the table of these
    records. *)
Theorem response_type_invariant (env : adapters) (prompt : str) (r : response) :
  outcome_of (get_response_with_rag env prompt) = Ret r ->
  (type r = lit "text" \/ type r = lit "html") /\
  (type r = lit "html" <->
   exists first_name last_name o orders,
     extract_customer_name prompt = Some (first_name, last_name) /\
     get_customer_orders env first_name last_name = Ret (o :: orders) /\
     content r = JStr (format_order_table (o :: orders))).
Proof.
  destruct (extract_customer_name prompt) as [[first_name last_name]|] eqn:Hname.
  - rewrite (order_lookup_run env _ _ _ Hname). unfold outcome_of; simpl.
    destruct (get_customer_orders env first_name last_name)
      as [[|o orders]|e] eqn:Hstore; intros [= <-]; simpl.
    + split; [now left|]. split; [discriminate|].
      intros [f [l [o [orders [[= <- <-] [Hs _]]]]]]. congruence.
    + split; [now right|]. split; [|reflexivity].
      intros _. now exists first_name, last_name, o, orders.
  - rewrite (chat_run env _ Hname). unfold outcome_of; simpl.
    intros Hr.
    assert (Htext : type r = lit "text").
    { destruct (invoke_model env _ _ _ _) as [[| | | | |members]|e];
        injection Hr as <-; reflexivity. }
    rewrite Htext. split; [now left|]. split; [discriminate|].
    intros [f [l [o [orders [Hnone _]]]]]. discriminate Hnone.
Qed.

Lemma response_type_invariant_witness :
  (lit "html" = lit "text" \/ lit "html" = lit "html") /\
  (lit "html" = lit "html" <->
   exists first_name last_name o orders,
     extract_customer_name (lit "What are Jane Doe's orders?")
     = Some (first_name, last_name) /\
     get_customer_orders all_up first_name last_name = Ret (o :: orders) /\
     JStr (format_order_table [maple_sphere])
     = JStr (format_order_table (o :: orders))).
Proof.
  apply (response_type_invariant all_up (lit "What are Jane Doe's orders?")
           (Response (lit "html") (JStr (format_order_table [maple_sphere])))).
  reflexivity.
Defined.

(** X10. On the chat fallback the reply's completion member is passed on as
    the content whatever value it is, and a payload that is not an object
    is answered with the apology. *)
Theorem completion_passed_on (env : adapters) (prompt : str) :
  extract_customer_name prompt = None ->
  let run := get_response_with_rag env prompt in
  let reply := invoke_model env model_id application_json application_json
                 (chat_request prompt) in
  (forall members v,
     reply = Ret (JObj members) ->
     dict_lookup (lit "completion") members = Some v ->
     outcome_of run = Ret (Response (lit "text") v)) /\
  (forall payload,
     reply = Ret payload ->
     (forall members, payload <> JObj members) ->
     outcome_of run = Ret (Response (lit "text") (JStr language_model_apology))).
Proof.
  intros Hname run reply. subst run reply. rewrite (chat_run env _ Hname).
  unfold outcome_of; simpl. split.
  - intros members v -> ->. reflexivity.
  - intros payload -> Hnot.
    destruct payload as [| | | | |members]; try reflexivity.
    now destruct (Hnot members).
Qed.

Lemma completion_passed_on_witness :
  outcome_of (get_response_with_rag all_up (lit "tell me a joke"))
  = Ret (Response (lit "text") (JStr (lit "Why did the ball roll away?"))) /\
  let env := Adapters (get_customer_orders all_up)
               (fun _ _ _ _ => Ret (JArr [])) (requests_post all_up)
               (getenv all_up) in
  outcome_of (get_response_with_rag env (lit "tell me a joke"))
  = Ret (Response (lit "text") (JStr language_model_apology)).
Proof.
  split.
  - destruct (completion_passed_on all_up (lit "tell me a joke")) as [Hpass _];
      [reflexivity|].
    apply (Hpass [(lit "completion", JStr (lit "Why did the ball roll away?"))]);
      reflexivity.
  - intros env.
    destruct (completion_passed_on env (lit "tell me a joke")) as [_ Hother];
      [reflexivity|].
    apply (Hother (JArr [])); [reflexivity | discriminate].
Defined.

(** X11. The notice of the formatter for an empty list is never what an
    order lookup returns: with no records the router answers with its own
    text. *)
Theorem lookup_never_returns_notice
    (env : adapters) (prompt first_name last_name : str) (r : response) :
  extract_customer_name prompt = Some (first_name, last_name) ->
  outcome_of (get_response_with_rag env prompt) = Ret r ->
  content r <> JStr (format_order_table []) /\
  (get_customer_orders env first_name last_name = Ret [] ->
   r = Response (lit "text") (JStr (no_orders_text first_name last_name))).
Proof.
  intros Hname. rewrite (order_lookup_run env _ _ _ Hname).
  unfold outcome_of; simpl.
  destruct (get_customer_orders env first_name last_name)
    as [[|o orders]|e]; intros [= <-]; simpl.
  - split; [discriminate | reflexivity].
  - split; [|discriminate].
    unfold format_order_table. rewrite fold_left_append. discriminate.
Qed.

Lemma lookup_never_returns_notice_witness :
  let r := Response (lit "text")
             (JStr (lit "I couldn't find any orders for John Smith. Would you like to place a new order?")) in
  outcome_of (get_response_with_rag all_up (lit "orders for john smith")) = Ret r /\
  content r <> JStr (format_order_table []).
Proof.
  intros r. split; [reflexivity|].
  apply (lookup_never_returns_notice all_up (lit "orders for john smith")
           (lit "John") (lit "Smith") r); reflexivity.
Defined.

(** ** extract_customer_name *)

Lemma occurs_in_middle (kw pre mid post : str) :
  occurs_in kw mid -> occurs_in kw (pre ++ mid ++ post).
Proof.
  intros [a [b ->]]. exists (pre ++ a), (b ++ post).
  now rewrite <- !app_assoc.
Qed.

Lemma mentions_sound (kws : list str) r s g s' g' :
  matches r s g s' g' -> mentions kws r = true ->
  exists kw cs, In kw kws /\ s = cs ++ s' /\ occurs_in kw cs.
Proof.
  induction 1 as [l s g|p cs s g Hne Hall|cs s g Hall|r s g s' g' Hm IH|r s g
                 |r1 r2 s g s' g' Hm IH|r1 r2 s g s' g' Hm IH
                 |r1 r2 s g s1 g1 s2 g2 Hm1 IH1 Hm2 IH2|n r s g s' g' Hm IH];
    simpl; intros Hment; try discriminate.
  - apply existsb_exists in Hment. destruct Hment as [kw [Hin Hc]].
    exists kw, l. split; [exact Hin|]. split; [reflexivity|].
    now apply contains_spec.
  - apply andb_true_iff in Hment. now apply IH.
  - apply andb_true_iff in Hment. now apply IH.
  - destruct (matches_suffix _ _ _ _ _ Hm1) as [c1 E1].
    destruct (matches_suffix _ _ _ _ _ Hm2) as [c2 E2].
    apply orb_true_iff in Hment. destruct Hment as [Hment | Hment].
    + destruct (IH1 Hment) as [kw [cs [Hin [Hs Hocc]]]].
      exists kw, (cs ++ c2). split; [exact Hin|]. split.
      * rewrite Hs, E2. now rewrite app_assoc.
      * rewrite <- (app_nil_l (cs ++ c2)). now apply occurs_in_middle.
    + destruct (IH2 Hment) as [kw [cs [Hin [Hs Hocc]]]].
      exists kw, (c1 ++ cs). split; [exact Hin|]. split.
      * rewrite E1, Hs. now rewrite app_assoc.
      * rewrite <- (app_nil_r cs). now apply occurs_in_middle.
  - now apply IH.
Qed.

Lemma patterns_mention_keywords :
  forallb (mentions name_keywords) patterns = true.
Proof. reflexivity. Qed.

(** X12. An utterance in which none of the words show, order, purchase,
    transaction and history occurs, in any casing, is never an order lookup:
    no name is extracted, and the router's one adapter call is the
    invocation of the language model. *)
Theorem no_keyword_no_lookup (env : adapters) (prompt : str) :
  (forall kw, In kw name_keywords -> ~ occurs_in kw (lower prompt)) ->
  extract_customer_name prompt = None /\
  trace_of (get_response_with_rag env prompt)
  = [InvokeModel model_id application_json application_json
       (chat_request prompt)].
Proof.
  intros Hnone.
  assert (Hname : extract_customer_name prompt = None).
  { apply first_match_none; [apply patterns_capture_names|].
    apply Forall_forall. intros p Hp.
    apply search_none_iff. intros [skipped [s0 [s' [m [Htext Hm]]]]].
    pose proof patterns_mention_keywords as Hall.
    rewrite forallb_forall in Hall.
    destruct (mentions_sound name_keywords _ _ _ _ _ Hm (Hall p Hp))
      as [kw [cs [Hin [-> Hocc]]]].
    apply (Hnone kw Hin). rewrite Htext. now apply occurs_in_middle. }
  split; [exact Hname|]. now rewrite (chat_run env _ Hname).
Qed.

Lemma no_keyword_no_lookup_witness :
  extract_customer_name (lit "Is Jane Doe a customer of yours?") = None /\
  trace_of (get_response_with_rag all_up (lit "Is Jane Doe a customer of yours?"))
  = [InvokeModel model_id application_json application_json
       (chat_request (lit "Is Jane Doe a customer of yours?"))].
Proof.
  apply no_keyword_no_lookup.
  intros kw Hin Hocc. apply contains_spec in Hocc. simpl in Hin.
  repeat (destruct Hin as [<-|Hin]; [vm_compute in Hocc; discriminate|]).
  exact Hin.
Defined.

(** ** format_order_table *)




(** ** app.py *)

(** What a string content is shown as. *)
Lemma show_message_string (role t : str) :
  App.show_message (App.Message role (JStr t))
  = Ret (App.Markdown role
           (if App.str_eqb role (lit "assistant")
            then App.assistant_avatar else App.user_avatar)
           (JStr t)).
Proof.
  unfold App.show_message. cbn [App.role App.message_content].
  now destruct (App.str_eqb role (lit "assistant")).
Qed.

Lemma init_messages (st : App.session_state) :
  App.messages (App.init_session_state st)
  = Some (match App.messages st with Some ms => ms | None => [App.welcome] end).
Proof. unfold App.init_session_state. now destruct (App.messages st). Qed.

(** X14. A submitted prompt adds exactly two messages to the history, the
    prompt and then the content of the response, after the messages that
    were there; both are shown with [st.markdown], whatever the type of the
    response is. *)
Theorem turn_appends_two_messages
    (respond : str -> outcome response) (st : App.session_state)
    (ms : list App.message) (c : ascii) (p : str) (reply : response) :
  App.messages (App.init_session_state st) = Some ms ->
  snd (App.show_history ms) = None ->
  respond (c :: p) = Ret reply ->
  let r := App.script respond st (App.Inputs (Some (c :: p)) false) in
  App.messages (App.state r)
  = Some (ms ++ [App.Message (lit "user") (JStr (c :: p));
                 App.Message (lit "assistant") (content reply)]) /\
  App.screen r
  = fst (App.show_history ms)
    ++ [App.Markdown (lit "user") App.user_avatar (JStr (c :: p));
        App.Markdown (lit "assistant") App.assistant_avatar (content reply)] /\
  App.ended r = App.Done.
Proof.
  intros Hms Hshow Hreply r. subst r. unfold App.script. rewrite Hms.
  destruct (App.show_history ms) as [shown e]. simpl in Hshow. subst e.
  cbn [App.chat_input]. rewrite Hreply.
  unfold App.sidebar. cbn [App.reset_clicked App.state App.screen App.ended
                           App.messages fst].
  rewrite <- !app_assoc. repeat split.
Qed.

Lemma turn_appends_two_messages_witness :
  let respond := fun prompt => outcome_of (get_response_with_rag all_up prompt) in
  let r := App.script respond App.new_session
             (App.Inputs (Some (lit "What are Jane Doe's orders?")) false) in
  App.messages (App.state r)
  = Some [App.welcome;
          App.Message (lit "user") (JStr (lit "What are Jane Doe's orders?"));
          App.Message (lit "assistant")
            (JStr (format_order_table [maple_sphere]))].
Proof.
  intros respond r.
  destruct (turn_appends_two_messages respond App.new_session [App.welcome]
              "W"%char (lit "hat are Jane Doe's orders?")
              (Response (lit "html") (JStr (format_order_table [maple_sphere]))))
    as [Hmessages _]; [reflexivity | reflexivity | reflexivity |].
  exact Hmessages.
Defined.

(** X15. When the response function raises, the run ends in that exception
    with the prompt already in the history and no reply to it, and the
    assistant's container still showing "Thinking...". *)
Theorem failed_turn_keeps_prompt
    (respond : str -> outcome response) (st : App.session_state)
    (ms : list App.message) (c : ascii) (p : str) (e : exn) (reset : bool) :
  App.messages (App.init_session_state st) = Some ms ->
  snd (App.show_history ms) = None ->
  respond (c :: p) = Raise e ->
  let r := App.script respond st (App.Inputs (Some (c :: p)) reset) in
  App.messages (App.state r)
  = Some (ms ++ [App.Message (lit "user") (JStr (c :: p))]) /\
  App.screen r
  = fst (App.show_history ms)
    ++ [App.Markdown (lit "user") App.user_avatar (JStr (c :: p));
        App.thinking] /\
  App.ended r = App.Failed e.
Proof.
  intros Hms Hshow Hreply r. subst r. unfold App.script. rewrite Hms.
  destruct (App.show_history ms) as [shown e']. simpl in Hshow. subst e'.
  cbn [App.chat_input]. rewrite Hreply.
  cbn [App.state App.screen App.ended App.messages fst].
  rewrite <- !app_assoc. repeat split.
Qed.

Lemma failed_turn_keeps_prompt_witness :
  let respond := fun prompt => outcome_of (get_response_with_rag store_down prompt) in
  let r := App.script respond App.new_session
             (App.Inputs (Some (lit "orders for john smith")) false) in
  App.messages (App.state r)
  = Some [App.welcome;
          App.Message (lit "user") (JStr (lit "orders for john smith"))] /\
  App.ended r = App.Failed store_outage.
Proof.
  intros respond r.
  destruct (failed_turn_keeps_prompt respond App.new_session [App.welcome]
              "o"%char (lit "rders for john smith") store_outage false)
    as [Hmessages [_ Hended]]; [reflexivity | reflexivity | reflexivity |].
  split; [exact Hmessages | exact Hended].
Defined.

(** X16. An order table returned by the router is a string, so the history
    shows the stored reply with [st.markdown]: the HTML component is only
    used for a stored content that is itself a dict of type "html". *)
Theorem stored_table_shown_as_markdown
    (env : adapters) (prompt : str) (r : response) :
  outcome_of (get_response_with_rag env prompt) = Ret r ->
  type r = lit "html" ->
  App.show_message (App.Message (lit "assistant") (content r))
  = Ret (App.Markdown (lit "assistant") App.assistant_avatar (content r)).
Proof.
  intros Hr Htype.
  assert (Hstring : exists t, content r = JStr t).
  { destruct (extract_customer_name prompt) as [[first_name last_name]|] eqn:Hname.
    - rewrite (order_lookup_run env _ _ _ Hname) in Hr. unfold outcome_of in Hr.
      destruct (get_customer_orders env first_name last_name) as [[|o orders]|e];
        simpl in Hr; try discriminate Hr;
        injection Hr as <-; eexists; reflexivity.
    - rewrite (chat_run env _ Hname) in Hr. unfold outcome_of in Hr.
      destruct (invoke_model env _ _ _ _) as [[| | | | |members]|e];
        simpl in Hr; injection Hr as <-; discriminate Htype. }
  destruct Hstring as [t ->]. apply show_message_string.
Qed.

Lemma stored_table_shown_as_markdown_witness :
  App.show_message
    (App.Message (lit "assistant") (JStr (format_order_table [maple_sphere])))
  = Ret (App.Markdown (lit "assistant") App.assistant_avatar
           (JStr (format_order_table [maple_sphere]))).
Proof.
  apply (stored_table_shown_as_markdown all_up
           (lit "What are Jane Doe's orders?")
           (Response (lit "html") (JStr (format_order_table [maple_sphere]))));
    reflexivity.
Defined.

(** X17. The reset button empties the session: after the click and the rerun
    it causes, the history is the empty list (the welcome message of a new
    session is not put back), the two flags are cleared, and nothing is
    shown in the chat. *)
Theorem reset_clears_session
    (respond : str -> outcome response) (st : App.session_state)
    (ms : list App.message) :
  App.messages (App.init_session_state st) = Some ms ->
  snd (App.show_history ms) = None ->
  let r := App.interaction respond st (App.Inputs None true) in
  App.state r = App.SessionState (Some []) (Some None) (Some false) /\
  App.screen r = [] /\
  App.ended r = App.Done.
Proof.
  intros Hms Hshow r. subst r.
  assert (Hclick :
    App.script respond st (App.Inputs None true)
    = App.Run (App.SessionState (Some []) (Some None) (Some false))
        (fst (App.show_history ms)) App.Rerun).
  { unfold App.script. rewrite Hms.
    destruct (App.show_history ms) as [shown e]. simpl in Hshow. subst e.
    reflexivity. }
  unfold App.interaction. rewrite Hclick. repeat split.
Qed.

Lemma reset_clears_session_witness :
  let respond := fun prompt => outcome_of (get_response_with_rag all_up prompt) in
  App.messages
    (App.state (App.interaction respond App.new_session (App.Inputs None true)))
  = Some [] /\
  App.messages (App.state (App.interaction respond App.new_session App.no_input))
  = Some [App.welcome].
Proof.
  intros respond. split; [|reflexivity].
  destruct (reset_clears_session respond App.new_session [App.welcome])
    as [Hstate _]; [reflexivity | reflexivity |].
  now rewrite Hstate.
Defined.

Lemma script_clears_flags
    (respond : str -> outcome response) (st : App.session_state)
    (inp : App.inputs) :
  App.flags_unset_or_clear st ->
  App.flags_clear (App.state (App.script respond st inp)).
Proof.
  intros [Hphone Hcs].
  assert (Hinit : App.flags_clear (App.init_session_state st)).
  { unfold App.flags_clear, App.init_session_state; simpl.
    destruct Hphone as [-> | ->]; destruct Hcs as [-> | ->]; now split. }
  destruct Hinit as [Hp Hc]. unfold App.script.
  destruct (App.show_history _) as [shown [e|]]; [now split|].
  unfold App.sidebar.
  destruct (App.chat_input inp) as [[|c p]|];
    try (destruct (App.reset_clicked inp); now split).
  destruct (respond (c :: p)) as [reply|e]; simpl.
  - destruct (App.reset_clicked inp); simpl; now split.
  - now split.
Qed.

Lemma interaction_clears_flags
    (respond : str -> outcome response) (st : App.session_state)
    (inp : App.inputs) :
  App.flags_unset_or_clear st ->
  App.flags_clear (App.state (App.interaction respond st inp)).
Proof.
  intros Hst. unfold App.interaction.
  pose proof (script_clears_flags respond st inp Hst) as [Hp Hc].
  destruct (App.ended (App.script respond st inp)); try now split.
  apply script_clears_flags. split; [now right | now right].
Qed.

(** X18. No run of the script gives the session's phone number or its
    customer-service flag a value other than the initial one: after any
    sequence of prompts and resets in a new session, [phone_number] is None
    and [cs_mode] is False. *)
Theorem session_flags_never_set
    (respond : str -> outcome response) (inps : list App.inputs) :
  inps <> [] ->
  let st := App.session respond App.new_session inps in
  App.phone_number st = Some None /\ App.cs_mode st = Some false.
Proof.
  intros Hne st. subst st.
  assert (Hkeep : forall l st0,
            App.flags_clear st0 -> App.flags_clear (App.session respond st0 l)).
  { induction l as [|inp l IH]; intros st0 H0; simpl; [exact H0|].
    apply IH. apply interaction_clears_flags.
    destruct H0 as [Hp Hc]. split; now right. }
  destruct inps as [|inp rest]; [now destruct Hne|]. simpl.
  apply Hkeep. apply interaction_clears_flags. split; now left.
Qed.

Lemma session_flags_never_set_witness :
  let respond := fun prompt =>
    match outcome_of (handle_customer_service_request all_up prompt None) with
    | Ret (Some reply) => Ret (Response (lit "text") (JStr reply))
    | _ => outcome_of (get_response_with_rag all_up prompt)
    end in
  let st := App.session respond App.new_session
              [App.Inputs (Some (lit "please call me")) false;
               App.Inputs (Some (lit "(719) 555-0199")) false] in
  App.phone_number st = Some None /\ App.cs_mode st = Some false.
Proof.
  intros respond.
  apply (session_flags_never_set respond
           [App.Inputs (Some (lit "please call me")) false;
            App.Inputs (Some (lit "(719) 555-0199")) false]).
  discriminate.
Defined.
